(** * GCPDataHandler: credential normalisation, memoised calls and query
      construction of [src/gcp_handler.py], embedded in Rocq.

    Python values are modelled structurally. Credentials are the record of
    their attributes; which object a call hands to the memoised function,
    which is what a cache keyed on the arguments sees of it, is modelled
    apart ([call_with_object], [method_call]). Dictionaries are finite maps
    from strings, exceptions are an error result, and the remote services
    (discovery, Cloud Resource Manager, BigQuery) are an oracle whose
    invocations are recorded in a log. *)

From stdpp Require Import base option list strings gmap fin_maps pretty countable.

Open Scope Z_scope.

(** ** Python values and exceptions *)

(** The values that occur in credential records, call arguments and rows.
    [VFunc] is a callable object. *)
Inductive PyVal :=
| VNone
| VStr (s : string)
| VInt (n : Z)
| VStrs (l : list string)
| VFunc (f : N).

Global Instance PyVal_eq_dec : EqDecision PyVal.
Proof. solve_decision. Defined.

Global Instance PyVal_countable : Countable PyVal.
Proof.
  refine (inj_countable'
    (fun v => match v with
              | VNone => inl (inl ())
              | VStr s => inl (inr s)
              | VInt n => inr (inl (inl n))
              | VStrs l => inr (inr l)
              | VFunc f => inr (inl (inr f))
              end)
    (fun x => match x with
              | inl (inl _) => VNone
              | inl (inr s) => VStr s
              | inr (inl (inl n)) => VInt n
              | inr (inr l) => VStrs l
              | inr (inl (inr f)) => VFunc f
              end) _).
  by intros [].
Defined.

(** Exceptions. Every class below derives from Python's [Exception], so
    [except Exception] catches all of them. [ProviderError] stands for any
    error raised by the external client libraries. *)
Inductive PyExn :=
| TypeError (msg : string)
| AssertionError
| Exception (msg : string)
| ProviderError (cls msg : string).

(** [str(e)] *)
Definition py_str (e : PyExn) : string :=
  match e with
  | TypeError msg => msg
  | AssertionError => ""
  | Exception msg => msg
  | ProviderError _ msg => msg
  end.

Inductive Result (A : Type) :=
| Ok (a : A)
| Raise (e : PyExn).
Arguments Ok {A} a.
Arguments Raise {A} e.

Global Instance Result_ret : MRet Result := fun _ a => Ok a.
Global Instance Result_bind : MBind Result := fun _ _ f m =>
  match m with
  | Ok a => f a
  | Raise e => Raise e
  end.

(** ** Credentials *)

(** A credential record as passed around by callers: a [dict]. *)
Abbreviation CredentialRecord := (gmap string PyVal).

(** [google.oauth2.credentials.Credentials]: the six attributes the handler
    reads back, and the remaining keyword arguments the object was built
    from. This is what the object holds; which object it is (its identity) is
    kept apart, see [call_with_object]. *)
Record Credentials := mkCredentials {
  token : PyVal;
  refresh_token : PyVal;
  token_uri : PyVal;
  client_id : PyVal;
  client_secret : PyVal;
  scopes : PyVal;
  other_kwargs : gmap string PyVal
}.

Global Instance Credentials_eq_dec : EqDecision Credentials.
Proof. solve_decision. Defined.

Global Instance Credentials_countable : Countable Credentials.
Proof.
  refine (inj_countable'
    (fun c => (token c, refresh_token c, token_uri c, client_id c,
               client_secret c, scopes c, other_kwargs c))
    (fun x => let '(a, b, c, d, e, f, g) := x in mkCredentials a b c d e f g) _).
  by intros [].
Defined.

(** The names of the six fields of a credential record. *)
Definition record_fields : gset string :=
  {[ "token"; "refresh_token"; "token_uri"; "client_id"; "client_secret"; "scopes" ]}.

(** What the handler is given as [credentials]: a [dict], a live
    [Credentials] object, or anything else. *)
Inductive CredInput :=
| CredDict (d : CredentialRecord)
| CredLive (c : Credentials)
| CredOther (v : PyVal).

(** ** The remote services *)

(** A row of a result: a [dict] (a project, dataset or table resource, a row
    of a data frame, a schema field). *)
Abbreviation Row := (gmap string PyVal).

(** What the handler's operations return. A [pandas.DataFrame] is modelled by
    its rows. *)
Abbreviation Payload := (list Row).

(** Opaque handles of the client libraries. *)
Definition Service := N.
Definition QueryJob := N.
Definition RowIterator := N.

(** The requests the handler builds on a discovery service:
    [service.projects().list()], [service.datasets().list(projectId=..)],
    [service.tables().list(projectId=.., datasetId=..)]. *)
Inductive Request :=
| ProjectsList (service : Service)
| DatasetsList (service : Service) (projectId : string)
| TablesList (service : Service) (projectId datasetId : string).

(** [bigquery.Client(credentials=.., project=.., location=..)] *)
Record BqClient := mkBqClient {
  bq_credentials : Credentials;
  bq_project : string;
  bq_location : string
}.

(** A field of [table.schema]. *)
Record SchemaField := mkSchemaField {
  name : string;
  field_type : string;
  mode : string;
  description : PyVal
}.

Record Table := mkTable { schema : list SchemaField }.

(** The calls that leave the process. *)
Inductive RemoteCall :=
| DiscoveryBuild (serviceName version : string) (credentials : Credentials)
| Execute (request : Request)
| Query (client : BqClient) (query : string)
| JobResult (query_job : QueryJob)
| ToDataframe (result : RowIterator)
| GetTable (client : BqClient) (table_ref : string).

(** What becomes of a request on a discovery service. The client checks the
    arguments when the request is built and refuses them with a [TypeError],
    before anything is sent; a request that is built is executed, and that
    raises or returns the response. *)
Inductive Outcome (A : Type) :=
| Refused (e : PyExn)
| Raised (e : PyExn)
| Returned (a : A).
Arguments Refused {A} e.
Arguments Raised {A} e.
Arguments Returned {A} a.

(** The answers of the remote services: each call returns or raises. *)
Record Remote := mkRemote {
  discovery_build : string → string → Credentials → Result Service;
  execute : Request → Outcome (gmap string Payload);
  bq_query : BqClient → string → Result QueryJob;
  job_result : QueryJob → Result RowIterator;
  to_dataframe : RowIterator → Result Payload;
  bq_get_table : BqClient → string → Result Table
}.

(** A computation that talks to the remote services: the calls it made, in
    order, and how it ended. *)
Definition Call (A : Type) : Type := (list RemoteCall * Result A)%type.

Global Instance Call_ret : MRet Call := fun _ a => ([], Ok a).
Global Instance Call_bind : MBind Call := fun _ _ f m =>
  match m.2 with
  | Ok a => (m.1 ++ (f a).1, (f a).2)
  | Raise e => (m.1, Raise e)
  end.

Definition remote_call {A} (call : RemoteCall) (answer : Result A) : Call A :=
  ([call], answer).

Definition raise {A} (e : PyExn) : Call A := ([], Raise e).

(** [try: body except Exception as e: handler e] *)
Definition try_except {A} (body : Call A) (handler : PyExn → Call A) : Call A :=
  match body.2 with
  | Ok a => body
  | Raise e => (body.1 ++ (handler e).1, (handler e).2)
  end.

(** Building a request and executing it:
    [request = service.datasets().list(..)] and [request.execute()]. A
    refused request is not executed. *)
Definition send (remote : Remote) (request : Request) : Call (gmap string Payload) :=
  match execute remote request with
  | Refused e => raise e
  | Raised e => remote_call (Execute request) (Raise e)
  | Returned response => remote_call (Execute request) (Ok response)
  end.

(** ** Properties of the handler *)

Definition cache_timeout : Z := 300.
Definition service_name : string := "GCP".
Definition crm_version : string := "v1".
Definition bq_version : string := "v2".

(** ** The memoised functions *)

(** Truth value of an optional string and of an optional integer in a
    condition: [None], the empty string and zero are false. *)
Definition truthy_str (o : option string) : bool :=
  match o with
  | Some s => bool_decide (s ≠ "")
  | None => false
  end.

Definition truthy_int (o : option Z) : bool :=
  match o with
  | Some n => bool_decide (n ≠ 0)
  | None => false
  end.

(** [f'{limit}'] *)
Definition format_int (o : option Z) : string :=
  match o with
  | Some n => pretty n
  | None => "None"
  end.

(** [_get_projects] *)
Definition _get_projects (remote : Remote) (credentials : Credentials) : Call Payload :=
  service ← remote_call (DiscoveryBuild "cloudresourcemanager" crm_version credentials)
              (discovery_build remote "cloudresourcemanager" crm_version credentials);
  let request := ProjectsList service in
  response ← send remote request;
  let projects := default [] (response !! "projects") in
  mret projects.

(** [_get_datasets] *)
Definition _get_datasets (remote : Remote) (credentials : Credentials)
    (project_id : string) : Call Payload :=
  service ← remote_call (DiscoveryBuild "bigquery" bq_version credentials)
              (discovery_build remote "bigquery" bq_version credentials);
  let request := DatasetsList service project_id in
  response ← send remote request;
  mret (default [] (response !! "datasets")).

(** [_get_tables] *)
Definition _get_tables (remote : Remote) (credentials : Credentials)
    (project_id dataset_id : string) : Call Payload :=
  service ← remote_call (DiscoveryBuild "bigquery" bq_version credentials)
              (discovery_build remote "bigquery" bq_version credentials);
  let request := TablesList service project_id dataset_id in
  response ← send remote request;
  mret (default [] (response !! "tables")).

(** The body of the [try] block of [_read_table], up to the query it
    builds. *)
Definition read_table_query (table_ref : string) (limit : option Z)
    (custom_query : option string) : string :=
  if truthy_str custom_query then default "" custom_query
  else
    let query := "SELECT * FROM `" +:+ table_ref +:+ "`" in
    if truthy_int limit then query +:+ " LIMIT " +:+ format_int limit
    else query.

(** The [try] block of [_read_table]. *)
Definition _read_table_try (remote : Remote) (client : BqClient) (table_ref : string)
    (limit : option Z) (custom_query : option string) : Call Payload :=
  let query := read_table_query table_ref limit custom_query in
  query_job ← remote_call (Query client query) (bq_query remote client query);
  result ← remote_call (JobResult query_job) (job_result remote query_job);
  df ← remote_call (ToDataframe result) (to_dataframe remote result);
  mret df.

(** [_read_table]. The client is built before the [try] block; building it
    is local and makes no remote call. *)
Definition _read_table (remote : Remote) (credentials : Credentials)
    (project_id dataset_id table_id location : string)
    (limit : option Z) (custom_query : option string) : Call Payload :=
  let client := mkBqClient credentials project_id location in
  let table_ref := project_id +:+ "." +:+ dataset_id +:+ "." +:+ table_id in
  try_except
    (_read_table_try remote client table_ref limit custom_query)
    (fun e => raise (Exception ("Error reading table " +:+ table_ref +:+ ": " +:+ py_str e))).

(** The dictionary built for one schema field. *)
Definition field_dict (field : SchemaField) : Row :=
  {[ "name" := VStr (name field);
     "type" := VStr (field_type field);
     "mode" := VStr (mode field);
     "description" := description field ]}.

(** The [try] block of [_get_table_schema]. *)
Definition _get_table_schema_try (remote : Remote) (client : BqClient)
    (table_ref : string) : Call Payload :=
  table ← remote_call (GetTable client table_ref) (bq_get_table remote client table_ref);
  mret (field_dict <$> schema table).

(** [_get_table_schema] *)
Definition _get_table_schema (remote : Remote) (credentials : Credentials)
    (project_id dataset_id table_id location : string) : Call Payload :=
  let client := mkBqClient credentials project_id location in
  let table_ref := project_id +:+ "." +:+ dataset_id +:+ "." +:+ table_id in
  try_except
    (_get_table_schema_try remote client table_ref)
    (fun e => raise (Exception ("Error getting table schema for " +:+ table_ref +:+ ": " +:+ py_str e))).

Section Codec.

(** The keyword parameters of the [Credentials] constructor besides the six
    above; they depend on the installed google-auth release. *)
Variable extra_params : gset string.

(** A keyword argument, or its default [None]. *)
Definition kwarg (kwargs : gmap string PyVal) (name : string) : PyVal :=
  default VNone (kwargs !! name).

(** What may be given as [refresh_handler]: a callable or [None]. *)
Definition callable_or_none (v : PyVal) : bool :=
  match v with
  | VNone | VFunc _ => true
  | _ => false
  end.

(** The constructor called with the keyword arguments [kwargs]. The call is
    refused with a [TypeError] when a keyword is unknown or [token], the only
    required parameter, is missing; every other parameter defaults to
    [None]. The constructor then stores what it is given, and checks one
    thing: a [refresh_handler] must be callable or [None]. The texts of the
    first two errors are the interpreter's (CPython 3.10 and later); for
    several unknown keywords it names the first in the order of the
    dictionary, which a finite map does not keep: one of them is named
    here. *)
Definition Credentials_init (kwargs : gmap string PyVal) : Result Credentials :=
  if decide (dom kwargs ⊆ record_fields ∪ extra_params) then
    match kwargs !! "token" with
    | None =>
        Raise (TypeError
          "Credentials.__init__() missing 1 required positional argument: 'token'")
    | Some tok =>
        if callable_or_none (kwarg kwargs "refresh_handler") then
          Ok {| token := tok;
                refresh_token := kwarg kwargs "refresh_token";
                token_uri := kwarg kwargs "token_uri";
                client_id := kwarg kwargs "client_id";
                client_secret := kwarg kwargs "client_secret";
                scopes := kwarg kwargs "scopes";
                other_kwargs := filter (fun kv => kv.1 ∉ record_fields) kwargs |}
        else Raise (TypeError "The provided refresh_handler is not a callable or None.")
    end
  else
    Raise (TypeError
      ("Credentials.__init__() got an unexpected keyword argument '" +:+
       default "" (head (elements (dom kwargs ∖ (record_fields ∪ extra_params)))) +:+
       "'")).

(** [_dict_to_credentials]: the attributes of the object it creates. The
    object is a new one at every call. *)
Definition _dict_to_credentials (credentials : CredentialRecord) : Result Credentials :=
  Credentials_init credentials.

(** [_credentials_to_dict] *)
Definition _credentials_to_dict (credentials : Credentials) : CredentialRecord :=
  {[ "token" := token credentials;
     "refresh_token" := refresh_token credentials;
     "token_uri" := token_uri credentials;
     "client_id" := client_id credentials;
     "client_secret" := client_secret credentials;
     "scopes" := scopes credentials ]}.

(** The two lines every public method starts its call with:
    [if isinstance(credentials, dict): credentials = self._dict_to_credentials(credentials)]
    [assert isinstance(credentials, google.oauth2.credentials.Credentials)] *)
Definition as_credentials (credentials : CredInput) : Result Credentials :=
  match credentials with
  | CredDict d => _dict_to_credentials d
  | CredLive c => Ok c
  | CredOther _ => Raise AssertionError
  end.

End Codec.

(** ** Memoised calls *)

(** An argument of a memoised function. *)
Inductive PyArg :=
| ACred (c : Credentials)
| AVal (v : PyVal).

Global Instance PyArg_eq_dec : EqDecision PyArg.
Proof. solve_decision. Defined.

Global Instance PyArg_countable : Countable PyArg.
Proof.
  refine (inj_countable'
    (fun a => match a with ACred c => inl c | AVal v => inr v end)
    (fun x => match x with inl c => ACred c | inr v => AVal v end) _).
  by intros [].
Defined.

(** What a memoised function is called with, as its decorator sees the
    call: the decorated function and the ordered arguments. *)
Record MemoCall := mkMemoCall {
  fname : string;
  fargs : list PyArg
}.

Global Instance MemoCall_eq_dec : EqDecision MemoCall.
Proof. solve_decision. Defined.

Global Instance MemoCall_countable : Countable MemoCall.
Proof.
  refine (inj_countable'
    (fun m => (fname m, fargs m))
    (fun x => mkMemoCall x.1 x.2) _).
  by intros [].
Defined.

(** An optional argument as a Python value. *)
Definition opt_int (o : option Z) : PyVal :=
  match o with Some n => VInt n | None => VNone end.

Definition opt_str (o : option string) : PyVal :=
  match o with Some s => VStr s | None => VNone end.

(** The five operations of the handler with their arguments, the credentials
    apart. *)
Inductive Operation :=
| GetProjects
| GetDatasets (project_id : string)
| GetTables (project_id dataset_id : string)
| ReadTable (project_id dataset_id table_id location : string)
            (limit : option Z) (custom_query : option string)
| GetTableSchema (project_id dataset_id table_id location : string).

Global Instance Operation_eq_dec : EqDecision Operation.
Proof. solve_decision. Defined.

(** The memoised function an operation calls, with the arguments it passes. *)
Definition memo_call (op : Operation) (credentials : Credentials) : MemoCall :=
  match op with
  | GetProjects =>
      mkMemoCall "_get_projects" [ACred credentials]
  | GetDatasets project_id =>
      mkMemoCall "_get_datasets" [ACred credentials; AVal (VStr project_id)]
  | GetTables project_id dataset_id =>
      mkMemoCall "_get_tables"
        [ACred credentials; AVal (VStr project_id); AVal (VStr dataset_id)]
  | ReadTable project_id dataset_id table_id location limit custom_query =>
      mkMemoCall "_read_table"
        [ACred credentials; AVal (VStr project_id); AVal (VStr dataset_id);
         AVal (VStr table_id); AVal (VStr location); AVal (opt_int limit);
         AVal (opt_str custom_query)]
  | GetTableSchema project_id dataset_id table_id location =>
      mkMemoCall "_get_table_schema"
        [ACred credentials; AVal (VStr project_id); AVal (VStr dataset_id);
         AVal (VStr table_id); AVal (VStr location)]
  end.

(** The body of that memoised function. *)
Definition producer (remote : Remote) (op : Operation) (credentials : Credentials)
    : Call Payload :=
  match op with
  | GetProjects => _get_projects remote credentials
  | GetDatasets project_id => _get_datasets remote credentials project_id
  | GetTables project_id dataset_id => _get_tables remote credentials project_id dataset_id
  | ReadTable project_id dataset_id table_id location limit custom_query =>
      _read_table remote credentials project_id dataset_id table_id location
        limit custom_query
  | GetTableSchema project_id dataset_id table_id location =>
      _get_table_schema remote credentials project_id dataset_id table_id location
  end.

(** The time and the state of the remote services at a call. *)
Record Env := mkEnv {
  now : Z;
  remote : Remote
}.

Section Handler.

Variable extra_params : gset string.

(** The cache's keys and how its [memoize] decorator derives the key of a
    call; both belong to the cache handed to the handler's constructor. The
    derivation is the one in force for the call at hand: a [MemoCall] holds
    the attributes of the credentials object, not which object it is, and
    what the cache makes of the object it is given is fixed in
    [call_with_object]. *)
Context {K : Type} `{Countable K}.
Variable make_cache_key : MemoCall → K.

Record CacheEntry := mkCacheEntry {
  key : K;
  value : Payload;
  expiresAt : Z
}.

(** The cache of the handler and the log of the remote calls made so far. *)
Record State := mkState {
  cache : gmap K CacheEntry;
  remote_log : list RemoteCall
}.

Definition M (A : Type) : Type := State → Result A * State.

Definition M_ret {A} (a : A) : M A := fun st => (Ok a, st).

Definition M_bind {A B} (m : M A) (f : A → M B) : M B := fun st =>
  match m st with
  | (Ok a, st') => f a st'
  | (Raise e, st') => (Raise e, st')
  end.

Definition lift {A} (r : Result A) : M A := fun st => (r, st).

(** Modelled from the spec: the cache's memoising invoker (4.3), which is
    the [memoize] of the cache object and is not under src/. A present entry
    with [now <= expiresAt] is returned without calling the producer;
    otherwise the producer runs, its failure propagates with nothing stored,
    and its value is stored with [expiresAt = now + ttl]. *)
Definition invoke (k : K) (ttl : Z) (now : Z) (producer : unit → Call Payload)
    : M Payload := fun st =>
  let miss :=
    let run := producer () in
    let log := remote_log st ++ run.1 in
    match run.2 with
    | Raise e => (Raise e, mkState (cache st) log)
    | Ok v => (Ok v, mkState (<[k := mkCacheEntry k v (now + ttl)]> (cache st)) log)
    end in
  match cache st !! k with
  | Some entry =>
      if bool_decide (now ≤ expiresAt entry) then (Ok (value entry), st)
      else miss
  | None => miss
  end.

(** The value the cache holds for [k] at time [now], if it holds an
    unexpired one. *)
Definition cached (st : State) (k : K) (now : Z) : option Payload :=
  match cache st !! k with
  | Some entry => if bool_decide (now ≤ expiresAt entry) then Some (value entry) else None
  | None => None
  end.

(** Modelled from the spec: [clear()] of the cache (4.3), not under src/;
    it evicts every entry. *)
Definition clear : M unit := fun st =>
  (Ok (), mkState ∅ (remote_log st)).

(** [@self.cache.memoize(timeout=..)] applied to the function named [f]
    with body [body], and called with [args]. *)
Definition memoize (timeout : Z) (env : Env) (f : string) (args : list PyArg)
    (body : unit → Call Payload) : M Payload :=
  invoke (make_cache_key (mkMemoCall f args)) timeout (now env) body.

(** [get_projects] *)
Definition get_projects (env : Env) (credentials : CredInput) : M Payload :=
  M_bind (lift (as_credentials extra_params credentials)) (fun credentials =>
  memoize cache_timeout env "_get_projects" [ACred credentials]
    (fun _ => _get_projects (remote env) credentials)).

(** [get_datasets] *)
Definition get_datasets (env : Env) (credentials : CredInput)
    (project_id : string) : M Payload :=
  M_bind (lift (as_credentials extra_params credentials)) (fun credentials =>
  memoize cache_timeout env "_get_datasets"
    [ACred credentials; AVal (VStr project_id)]
    (fun _ => _get_datasets (remote env) credentials project_id)).

(** [get_tables] *)
Definition get_tables (env : Env) (credentials : CredInput)
    (project_id dataset_id : string) : M Payload :=
  M_bind (lift (as_credentials extra_params credentials)) (fun credentials =>
  memoize cache_timeout env "_get_tables"
    [ACred credentials; AVal (VStr project_id); AVal (VStr dataset_id)]
    (fun _ => _get_tables (remote env) credentials project_id dataset_id)).

(** [read_table] *)
Definition read_table (env : Env) (credentials : CredInput)
    (project_id dataset_id table_id location : string)
    (limit : option Z) (custom_query : option string) : M Payload :=
  M_bind (lift (as_credentials extra_params credentials)) (fun credentials =>
  memoize cache_timeout env "_read_table"
    [ACred credentials; AVal (VStr project_id); AVal (VStr dataset_id);
     AVal (VStr table_id); AVal (VStr location); AVal (opt_int limit);
     AVal (opt_str custom_query)]
    (fun _ => _read_table (remote env) credentials project_id dataset_id
                table_id location limit custom_query)).

(** [get_table_schema] *)
Definition get_table_schema (env : Env) (credentials : CredInput)
    (project_id dataset_id table_id location : string) : M Payload :=
  M_bind (lift (as_credentials extra_params credentials)) (fun credentials =>
  memoize cache_timeout env "_get_table_schema"
    [ACred credentials; AVal (VStr project_id); AVal (VStr dataset_id);
     AVal (VStr table_id); AVal (VStr location)]
    (fun _ => _get_table_schema (remote env) credentials project_id
                dataset_id table_id location)).

(** [clear_cache] *)
Definition clear_cache : M unit := clear.

(** Calling the method of an operation. *)
Definition handle (env : Env) (op : Operation) (credentials : CredInput)
    : M Payload :=
  match op with
  | GetProjects => get_projects env credentials
  | GetDatasets project_id => get_datasets env credentials project_id
  | GetTables project_id dataset_id =>
      get_tables env credentials project_id dataset_id
  | ReadTable project_id dataset_id table_id location limit custom_query =>
      read_table env credentials project_id dataset_id table_id location
        limit custom_query
  | GetTableSchema project_id dataset_id table_id location =>
      get_table_schema env credentials project_id dataset_id table_id location
  end.

End Handler.

(** ** The identity of the credentials object *)

Section Objects.

Variable extra_params : gset string.
Context {K : Type} `{Countable K}.

(** The key the cache derives for a memoised call whose credentials argument
    is the object with the given identity. A [Credentials] object is
    compared, hashed and printed by its identity (the class defines no
    [__eq__], [__hash__] or [__repr__]), so a cache that keys a call on its
    arguments sees which object it is given; what else of the call it looks
    at is its own affair. *)
Variable object_key : N → MemoCall → K.

(** A method called when the credentials object that reaches the memoised
    function has the identity [identity]: the object of the caller when it
    passed live credentials, the object that [_dict_to_credentials] creates
    during this call when it passed a dictionary. *)
Definition call_with_object (identity : N) (env : Env) (op : Operation)
    (credentials : CredInput) : @M K _ _ Payload :=
  handle extra_params (object_key identity) env op credentials.

(** The key derivation tells two objects apart. *)
Definition follows_identity : Prop :=
  ∀ (i j : N) (m m' : MemoCall), i ≠ j → object_key i m ≠ object_key j m'.

(** The handler in its process: its state, and the identity the next object
    created will have. Every object created so far has a smaller one.
    Identities are not given twice here: that the interpreter may give the
    address of an object that is gone to a later one is left out. *)
Record Process := mkProcess {
  handler_state : @State K _ _;
  next_identity : N
}.

(** What a caller passes as [credentials]: a dictionary, a [Credentials]
    object, which has its identity, or anything else. *)
Inductive Passed :=
| PassDict (d : CredentialRecord)
| PassObject (identity : N) (c : Credentials)
| PassOther (v : PyVal).

(** A method called by a caller. For a dictionary, [_dict_to_credentials]
    creates the credentials object (l.88): a new object at every call, and
    it is this object that the memoised function receives. *)
Definition method_call (env : Env) (op : Operation) (credentials : Passed)
    (p : Process) : Result Payload * Process :=
  match credentials with
  | PassDict d =>
      let out := call_with_object (next_identity p) env op (CredDict d)
                   (handler_state p) in
      (out.1, mkProcess out.2 (N.succ (next_identity p)))
  | PassObject identity c =>
      let out := call_with_object identity env op (CredLive c) (handler_state p) in
      (out.1, mkProcess out.2 (next_identity p))
  | PassOther v =>
      let out := call_with_object (next_identity p) env op (CredOther v)
                   (handler_state p) in
      (out.1, mkProcess out.2 (next_identity p))
  end.

End Objects.

(** ** Sample data for the examples *)

Definition sample_record : CredentialRecord :=
  {[ "token" := VStr "ya29.access";
     "refresh_token" := VStr "1//refresh";
     "token_uri" := VStr "https://oauth2.googleapis.com/token";
     "client_id" := VStr "client.apps.example";
     "client_secret" := VStr "s3cr3t";
     "scopes" := VStrs ["https://www.googleapis.com/auth/bigquery"] ]}.

Definition sample_credentials : Credentials :=
  mkCredentials (VStr "ya29.access") (VStr "1//refresh")
    (VStr "https://oauth2.googleapis.com/token") (VStr "client.apps.example")
    (VStr "s3cr3t") (VStrs ["https://www.googleapis.com/auth/bigquery"]) ∅.

(** A record with a refresh token and no token endpoint. *)
Definition record_without_token_uri : CredentialRecord :=
  {[ "token" := VStr "ya29.access";
     "refresh_token" := VStr "1//refresh" ]}.

Definition sample_rows : Payload := [ {[ "id" := VStr "d1" ]}; {[ "id" := VStr "d2" ]} ].

(** A remote that answers every call. *)
Definition sample_remote : Remote :=
  mkRemote
    (fun _ _ _ => Ok 1%N)
    (fun _ => Returned {[ "projects" := sample_rows; "datasets" := sample_rows;
                          "tables" := sample_rows ]})
    (fun _ _ => Ok 7%N)
    (fun _ => Ok 8%N)
    (fun _ => Ok sample_rows)
    (fun _ _ => Ok (mkTable [mkSchemaField "id" "STRING" "NULLABLE" VNone])).

(** A remote on which every call raises. *)
Definition failing_remote : Remote :=
  mkRemote
    (fun _ _ _ => Raise (ProviderError "HttpError" "503 unavailable"))
    (fun _ => Raised (ProviderError "HttpError" "503 unavailable"))
    (fun _ _ => Raise (ProviderError "NotFound" "404 table not found"))
    (fun _ => Raise (ProviderError "NotFound" "404 table not found"))
    (fun _ => Raise (ProviderError "NotFound" "404 table not found"))
    (fun _ _ => Raise (ProviderError "NotFound" "404 table not found")).

(** The credentials of another user. *)
Definition other_credentials : Credentials :=
  mkCredentials (VStr "ya29.other") (VStr "1//other")
    (VStr "https://oauth2.googleapis.com/token") (VStr "client.apps.example")
    (VStr "s3cr3t") (VStrs ["https://www.googleapis.com/auth/bigquery"]) ∅.

(** A record without a token. *)
Definition record_without_token : CredentialRecord :=
  {[ "refresh_token" := VStr "1//refresh" ]}.

(** A record whose refresh handler is a string. *)
Definition record_with_bad_handler : CredentialRecord :=
  {[ "token" := VStr "ya29.access";
     "refresh_token" := VStr "1//refresh";
     "refresh_handler" := VStr "x" ]}.

(** A remote whose discovery responses carry no resource list, and whose
    table has no field. *)
Definition bare_remote : Remote :=
  mkRemote
    (fun _ _ _ => Ok 1%N)
    (fun _ => Returned ∅)
    (fun _ _ => Ok 7%N)
    (fun _ => Ok 8%N)
    (fun _ => Ok [])
    (fun _ _ => Ok (mkTable [])).

(** A cache whose [memoize] uses the call itself as key, and its empty
    state. *)
Definition call_as_key : MemoCall → MemoCall := id.

Definition empty_state : @State MemoCall _ _ := mkState ∅ [].

(** A cache whose [memoize] uses the identity of the credentials object
    together with the call as key, and its empty state. *)
Definition object_and_call : N → MemoCall → N * MemoCall := pair.

Definition empty_object_state : @State (N * MemoCall) _ _ := mkState ∅ [].

(** A process in which one object exists, the credentials object of a
    caller with identity 0, and nothing is cached. *)
Definition fresh_process : @Process (N * MemoCall) _ _ :=
  mkProcess empty_object_state 1%N.

(** The queries among a list of remote calls. *)
Definition sent_queries (calls : list RemoteCall) : list string :=
  omap (fun call => match call with Query _ q => Some q | _ => None end) calls.

(** * Properties *)

#[local] Set Warnings "-clear-no-such-hyp".

(** ** The credential codec *)

Section CodecFacts.

Variable extra_params : gset string.

Lemma kwarg_lookup (r : CredentialRecord) (k : string) (v : PyVal) :
  r !! k = Some v → kwarg r k = v.
Proof. unfold kwarg. by intros ->. Qed.

Lemma kwarg_absent (r : CredentialRecord) (k : string) :
  r !! k = None → kwarg r k = VNone.
Proof. unfold kwarg. by intros ->. Qed.

(** A record whose keys the constructor knows, that has a token and whose
    refresh handler, if any, is callable or [None] is converted, field by
    field. *)
Lemma dict_to_credentials_ok (r : CredentialRecord) (tok : PyVal) :
  dom r ⊆ record_fields ∪ extra_params →
  r !! "token" = Some tok →
  callable_or_none (kwarg r "refresh_handler") = true →
  _dict_to_credentials extra_params r =
    Ok (mkCredentials tok (kwarg r "refresh_token") (kwarg r "token_uri")
          (kwarg r "client_id") (kwarg r "client_secret") (kwarg r "scopes")
          (filter (fun kv => kv.1 ∉ record_fields) r)).
Proof.
  intros Hdom Htok Hhandler. unfold _dict_to_credentials, Credentials_init.
  rewrite decide_True by done. by rewrite Htok, Hhandler.
Qed.

(** What an accepted record is, and what it is converted to. *)
Lemma dict_to_credentials_inv (r : CredentialRecord) (c : Credentials) :
  _dict_to_credentials extra_params r = Ok c →
  dom r ⊆ record_fields ∪ extra_params
  ∧ callable_or_none (kwarg r "refresh_handler") = true
  ∧ ∃ tok, r !! "token" = Some tok
      ∧ c = mkCredentials tok (kwarg r "refresh_token") (kwarg r "token_uri")
              (kwarg r "client_id") (kwarg r "client_secret") (kwarg r "scopes")
              (filter (fun kv => kv.1 ∉ record_fields) r).
Proof.
  unfold _dict_to_credentials, Credentials_init. intros Hc.
  case_decide; [| done]. destruct (r !! "token") as [tok |]; [| done].
  destruct (callable_or_none _) eqn:Hhandler; [| done].
  injection Hc as <-. by eauto.
Qed.

(** A record with no key besides the six fields has no refresh handler. *)
Lemma no_handler_among_fields (r : CredentialRecord) :
  dom r ⊆ record_fields → callable_or_none (kwarg r "refresh_handler") = true.
Proof.
  intros Hdom. rewrite kwarg_absent; [done |].
  apply not_elem_of_dom. intros Hin. apply Hdom in Hin.
  unfold record_fields in Hin. set_solver.
Qed.

Lemma credentials_to_dict_lookup (c : Credentials) (k : string) :
  _credentials_to_dict c !! k =
    if decide (k = "token") then Some (token c)
    else if decide (k = "refresh_token") then Some (refresh_token c)
    else if decide (k = "token_uri") then Some (token_uri c)
    else if decide (k = "client_id") then Some (client_id c)
    else if decide (k = "client_secret") then Some (client_secret c)
    else if decide (k = "scopes") then Some (scopes c)
    else None.
Proof.
  unfold _credentials_to_dict.
  repeat (case_decide; [subst; by simplify_map_eq |]).
  by simplify_map_eq.
Qed.

(** C3: for every well-formed credential record [r] (a dict with exactly
    the six fields token, refresh_token, token_uri, client_id,
    client_secret and scopes), [_dict_to_credentials] succeeds and
    [_credentials_to_dict] of its result is [r] again. *)
Theorem credentials_round_trip (r : CredentialRecord) :
  dom r = record_fields →
  ∃ c, _dict_to_credentials extra_params r = Ok c ∧ _credentials_to_dict c = r.
Proof.
  intros Hdom.
  assert (Hin : ∀ k, k ∈ record_fields → is_Some (r !! k)).
  { intros k Hk. apply elem_of_dom. rewrite Hdom. exact Hk. }
  destruct (Hin "token") as [tok Htok]; [set_solver |].
  eexists. split.
  { apply dict_to_credentials_ok with (tok := tok); [set_solver | done |].
    apply no_handler_among_fields. by rewrite Hdom. }
  apply map_eq. intros k. rewrite credentials_to_dict_lookup. simpl.
  destruct (decide (k = "token")) as [-> | ?]; [congruence |].
  repeat (destruct (decide (k = _)) as [-> | ?];
    [ match goal with
      | |- Some (kwarg r ?f) = _ =>
          destruct (Hin f) as [v Hv]; [set_solver |];
          rewrite (kwarg_lookup _ _ _ Hv); congruence
      end |]).
  symmetry. apply not_elem_of_dom. rewrite Hdom. unfold record_fields. set_solver.
Qed.

End CodecFacts.

(** ** Memoised calls and cache keys *)

Lemma opt_int_inj (a b : option Z) : opt_int a = opt_int b → a = b.
Proof. destruct a, b; simpl; congruence. Qed.

Lemma opt_str_inj (a b : option string) : opt_str a = opt_str b → a = b.
Proof. destruct a, b; simpl; congruence. Qed.

(** Every argument of an operation, and the credentials, reach the memoised
    function: two memoised calls are the same only for the same operation,
    arguments and credentials. *)
Lemma memo_call_inj (op op' : Operation) (c c' : Credentials) :
  memo_call op c = memo_call op' c' → op = op' ∧ c = c'.
Proof.
  destruct op, op'; simpl; intros Heq; try discriminate;
    injection Heq as ?; subst;
    repeat match goal with
           | H : opt_int _ = opt_int _ |- _ => apply opt_int_inj in H
           | H : opt_str _ = opt_str _ |- _ => apply opt_str_inj in H
           end; subst; done.
Qed.

(** Every memoised function starts with a remote call. *)
Lemma producer_calls_remote (remote : Remote) (op : Operation) (c : Credentials) :
  (producer remote op c).1 ≠ [].
Proof.
  destruct op; simpl;
    unfold _get_projects, _get_datasets, _get_tables, _read_table,
      _read_table_try, _get_table_schema, _get_table_schema_try, send,
      try_except, mbind, Call_bind, remote_call; simpl;
    repeat (match goal with
            | |- context [match ?r with Ok _ => _ | Raise _ => _ end] =>
                destruct r; simpl
            | |- context [match ?r with
                          | Refused _ => _ | Raised _ => _ | Returned _ => _
                          end] =>
                destruct r; simpl
            end); discriminate.
Qed.

Section HandlerFacts.

Variable extra_params : gset string.
Context {K : Type} `{Countable K}.
Variable make_cache_key : MemoCall → K.

Local Abbreviation handle := (handle extra_params make_cache_key).
Local Abbreviation as_credentials := (as_credentials extra_params).
Local Abbreviation _dict_to_credentials := (_dict_to_credentials extra_params).

Implicit Types (st : @State K _ _) (env : Env) (op : Operation).
Implicit Types (c : Credentials) (k : K).

(** *** The memoising invoker *)

Lemma invoke_hit k ttl now p st v :
  cached st k now = Some v → invoke k ttl now p st = (Ok v, st).
Proof.
  unfold cached, invoke. destruct (cache st !! k) as [entry |]; [| done].
  case_bool_decide; [| done]. by intros [= ->].
Qed.

Lemma invoke_miss k ttl now p st :
  cached st k now = None →
  invoke k ttl now p st =
    match (p ()).2 with
    | Raise e => (Raise e, mkState (cache st) (remote_log st ++ (p ()).1))
    | Ok v => (Ok v, mkState (<[k := mkCacheEntry k v (now + ttl)]> (cache st))
                       (remote_log st ++ (p ()).1))
    end.
Proof.
  unfold cached, invoke. destruct (cache st !! k) as [entry |]; [| done].
  by case_bool_decide.
Qed.

Lemma cached_stored k v now ttl now' (m : gmap K CacheEntry) log :
  now' ≤ now + ttl →
  cached (mkState (<[k := mkCacheEntry k v (now + ttl)]> m) log) k now' = Some v.
Proof.
  intros Hle. unfold cached. simpl. rewrite lookup_insert_eq. simpl.
  by rewrite bool_decide_eq_true_2.
Qed.

Lemma cached_later st k now now' :
  cached st k now = None → now ≤ now' → cached st k now' = None.
Proof.
  unfold cached. destruct (cache st !! k) as [entry |]; [| done].
  do 2 case_bool_decide; try done. lia.
Qed.

(** *** The methods *)

(** Each method normalises the credentials and then makes the memoised
    call of its function with the handler's timeout. *)
Lemma handle_unfold env op creds st :
  handle env op creds st =
    match as_credentials creds with
    | Raise e => (Raise e, st)
    | Ok c => invoke (make_cache_key (memo_call op c)) cache_timeout (now env)
                (fun _ => producer (remote env) op c) st
    end.
Proof.
  destruct op; simpl;
    unfold get_projects, get_datasets, get_tables, read_table,
      get_table_schema, M_bind, lift, memoize;
    by destruct (as_credentials creds).
Qed.

Lemma cached_empty log k now : cached (mkState ∅ log) k now = None.
Proof. unfold cached. simpl. by rewrite lookup_empty. Qed.

Lemma handle_hit env op creds c st v :
  as_credentials creds = Ok c →
  cached st (make_cache_key (memo_call op c)) (now env) = Some v →
  handle env op creds st = (Ok v, st).
Proof. intros Hc Hhit. rewrite handle_unfold, Hc. by apply invoke_hit. Qed.

Lemma handle_miss_ok env op creds c st v :
  as_credentials creds = Ok c →
  cached st (make_cache_key (memo_call op c)) (now env) = None →
  (producer (remote env) op c).2 = Ok v →
  handle env op creds st =
    (Ok v,
     mkState (<[make_cache_key (memo_call op c) :=
                  mkCacheEntry (make_cache_key (memo_call op c)) v
                    (now env + cache_timeout)]> (cache st))
             (remote_log st ++ (producer (remote env) op c).1)).
Proof.
  intros Hc Hmiss Hv. rewrite handle_unfold, Hc, invoke_miss by done.
  by rewrite Hv.
Qed.

Lemma handle_miss_raise env op creds c st e :
  as_credentials creds = Ok c →
  cached st (make_cache_key (memo_call op c)) (now env) = None →
  (producer (remote env) op c).2 = Raise e →
  handle env op creds st =
    (Raise e, mkState (cache st) (remote_log st ++ (producer (remote env) op c).1)).
Proof.
  intros Hc Hmiss He. rewrite handle_unfold, Hc, invoke_miss by done.
  by rewrite He.
Qed.

(** C4, as the code has it: a credential record that has a token and a
    refresh token but no token endpoint is not rejected for it. When the
    constructor has nothing else to refuse (every key is one of its
    keywords, and a refresh handler, if given, is callable or [None]), the
    record converts to live credentials whose [token_uri] is [None], the call
    goes on to the memoised function, and on a cache miss the remote service
    is called. *)
Theorem missing_token_uri_not_rejected env op r tok rt st :
  dom r ⊆ record_fields ∪ extra_params →
  callable_or_none (kwarg r "refresh_handler") = true →
  r !! "token" = Some tok →
  r !! "refresh_token" = Some rt →
  r !! "token_uri" = None →
  ∃ c, _dict_to_credentials r = Ok c
    ∧ token_uri c = VNone ∧ refresh_token c = rt
    ∧ handle env op (CredDict r) st =
        invoke (make_cache_key (memo_call op c)) cache_timeout (now env)
          (fun _ => producer (remote env) op c) st
    ∧ (cached st (make_cache_key (memo_call op c)) (now env) = None →
       (handle env op (CredDict r) st).1 = (producer (remote env) op c).2
       ∧ remote_log (handle env op (CredDict r) st).2 =
           remote_log st ++ (producer (remote env) op c).1
       ∧ (producer (remote env) op c).1 ≠ []).
Proof.
  intros Hdom Hhandler Htok Hrt Huri. eexists. split.
  { by apply dict_to_credentials_ok. }
  simpl. split; [by apply kwarg_absent |]. split; [by apply kwarg_lookup |].
  split.
  { rewrite handle_unfold. simpl.
    by rewrite (dict_to_credentials_ok _ _ tok Hdom Htok Hhandler). }
  intros Hmiss. rewrite handle_unfold. simpl.
  rewrite (dict_to_credentials_ok _ _ tok Hdom Htok Hhandler).
  rewrite invoke_miss by done. simpl.
  split; [| split].
  - by destruct (producer (remote env) op _).2.
  - by destruct (producer (remote env) op _).2.
  - apply producer_calls_remote.
Qed.

(** C7: when an operation misses the cache and its remote call fails, the
    failure is what the caller gets and nothing is stored in the cache; the
    next call with the same key runs the remote call again. *)
Theorem failures_not_memoised env op creds c st e :
  as_credentials creds = Ok c →
  cached st (make_cache_key (memo_call op c)) (now env) = None →
  (producer (remote env) op c).2 = Raise e →
  (handle env op creds st).1 = Raise e
  ∧ cache (handle env op creds st).2 = cache st
  ∧ remote_log (handle env op creds st).2 =
      remote_log st ++ (producer (remote env) op c).1
  ∧ ∀ env', now env ≤ now env' →
      (handle env' op creds (handle env op creds st).2).1 =
        (producer (remote env') op c).2
      ∧ remote_log (handle env' op creds (handle env op creds st).2).2 =
          remote_log (handle env op creds st).2 ++ (producer (remote env') op c).1
      ∧ (producer (remote env') op c).1 ≠ [].
Proof.
  intros Hc Hmiss He. rewrite (handle_miss_raise env op creds c st e) by done.
  simpl. do 3 (split; [done |]). intros env' Hle.
  set (st' := mkState (cache st) (remote_log st ++ (producer (remote env) op c).1)).
  assert (Hmiss' : cached st' (make_cache_key (memo_call op c)) (now env') = None).
  { apply cached_later with (now := now env); [| done]. exact Hmiss. }
  rewrite handle_unfold, Hc, invoke_miss by done.
  split; [| split].
  - by destruct (producer (remote env') op c).2.
  - by destruct (producer (remote env') op c).2.
  - apply producer_calls_remote.
Qed.


End HandlerFacts.

(** ** Calls and the identity of the credentials object *)

Section ObjectFacts.

Variable extra_params : gset string.
Context {K : Type} `{Countable K}.
Variable object_key : N → MemoCall → K.

Local Abbreviation call_with_object := (call_with_object extra_params object_key).
Local Abbreviation method_call := (method_call extra_params object_key).
Local Abbreviation as_credentials := (as_credentials extra_params).

Implicit Types (st : @State K _ _) (p : @Process K _ _) (env : Env).
Implicit Types (op : Operation) (c : Credentials) (i j : N).

Lemma call_miss_ok i env op creds c st v :
  as_credentials creds = Ok c →
  cached st (object_key i (memo_call op c)) (now env) = None →
  (producer (remote env) op c).2 = Ok v →
  call_with_object i env op creds st =
    (Ok v,
     mkState (<[object_key i (memo_call op c) :=
                  mkCacheEntry (object_key i (memo_call op c)) v
                    (now env + cache_timeout)]> (cache st))
             (remote_log st ++ (producer (remote env) op c).1)).
Proof. apply handle_miss_ok. Qed.

Lemma cached_beside k k' (entry : CacheEntry) (m : gmap K CacheEntry) log log' now :
  k ≠ k' →
  cached (mkState (<[k := entry]> m) log) k' now = cached (mkState m log') k' now.
Proof. intros Hk. unfold cached. simpl. by rewrite lookup_insert_ne. Qed.

(** Two calls whose credentials objects differ store their results under
    two keys. *)
Lemma two_objects_two_entries i j env env' op creds creds' c st v v' :
  follows_identity object_key →
  i ≠ j →
  as_credentials creds = Ok c →
  as_credentials creds' = Ok c →
  cached st (object_key i (memo_call op c)) (now env) = None →
  cached st (object_key j (memo_call op c)) (now env') = None →
  (producer (remote env) op c).2 = Ok v →
  (producer (remote env') op c).2 = Ok v' →
  object_key i (memo_call op c) ≠ object_key j (memo_call op c)
  ∧ value <$> cache (call_with_object j env' op creds'
                       (call_with_object i env op creds st).2).2
                !! object_key i (memo_call op c) = Some v
  ∧ value <$> cache (call_with_object j env' op creds'
                       (call_with_object i env op creds st).2).2
                !! object_key j (memo_call op c) = Some v'.
Proof.
  intros Hfollow Hij Hc Hc' Hmiss Hmiss' Hv Hv'.
  assert (Hkeys : object_key i (memo_call op c) ≠ object_key j (memo_call op c))
    by by apply Hfollow.
  split; [done |].
  rewrite (call_miss_ok i env op creds c st v) by done. simpl.
  rewrite (call_miss_ok j env' op creds' c _ v'); [| done | | done].
  - simpl. rewrite lookup_insert_ne by done. by rewrite !lookup_insert_eq.
  - by rewrite (cached_beside _ _ _ _ _ (remote_log st)).
Qed.

(** A second call with another credentials object runs the remote function
    again. *)
Lemma another_object_runs_again i j env env' op creds creds' c st v :
  follows_identity object_key →
  i ≠ j →
  as_credentials creds = Ok c →
  as_credentials creds' = Ok c →
  cached st (object_key i (memo_call op c)) (now env) = None →
  cached st (object_key j (memo_call op c)) (now env') = None →
  (producer (remote env) op c).2 = Ok v →
  (call_with_object j env' op creds' (call_with_object i env op creds st).2).1 =
    (producer (remote env') op c).2
  ∧ remote_log (call_with_object j env' op creds'
                  (call_with_object i env op creds st).2).2 =
      remote_log st ++ (producer (remote env) op c).1
        ++ (producer (remote env') op c).1.
Proof.
  intros Hfollow Hij Hc Hc' Hmiss Hmiss' Hv.
  rewrite (call_miss_ok i env op creds c st v) by done. simpl.
  unfold call_with_object. rewrite handle_unfold, Hc', invoke_miss.
  - destruct (producer (remote env') op c).2; simpl;
      (split; [done |]); by rewrite <- app_assoc.
  - rewrite (cached_beside _ _ _ _ _ (remote_log st)); [done |].
    by apply Hfollow.
Qed.




End ObjectFacts.

(** ** The query of [read_table] *)

Lemma read_table_sends_its_query remote c project_id dataset_id table_id location
    limit custom_query :
  sent_queries (_read_table remote c project_id dataset_id table_id location
                  limit custom_query).1 =
    [read_table_query (project_id +:+ "." +:+ dataset_id +:+ "." +:+ table_id)
       limit custom_query].
Proof.
  unfold _read_table, _read_table_try, try_except, mbind, Call_bind, remote_call.
  simpl.
  repeat (match goal with
          | |- context [match ?r with Ok _ => _ | Raise _ => _ end] =>
              destruct r; simpl
          end); done.
Qed.

Lemma read_table_query_default (table_ref : string) (limit : option Z) :
  read_table_query table_ref limit None =
    match limit with
    | Some n =>
        if decide (n = 0) then "SELECT * FROM `" +:+ table_ref +:+ "`"
        else ("SELECT * FROM `" +:+ table_ref +:+ "`") +:+ " LIMIT " +:+ pretty n
    | None => "SELECT * FROM `" +:+ table_ref +:+ "`"
    end.
Proof.
  unfold read_table_query. simpl. destruct limit as [n |]; simpl; [| done].
  case_decide; case_bool_decide; done.
Qed.

(** C5, as the code has it: when [custom_query] is supplied and is not the
    empty string, the one query [_read_table] sends is that string, unchanged,
    whatever [limit] is. *)
Theorem custom_query_sent_verbatim remote c project_id dataset_id table_id location
    limit custom_query :
  custom_query ≠ "" →
  sent_queries (_read_table remote c project_id dataset_id table_id location
                  limit (Some custom_query)).1 = [custom_query].
Proof.
  intros Hne. rewrite read_table_sends_its_query. unfold read_table_query. simpl.
  by rewrite bool_decide_eq_true_2.
Qed.

(** C6, as the code has it: without [custom_query], the one query
    [_read_table] sends selects everything from the back-quoted
    [project_id.dataset_id.table_id], followed by a LIMIT clause with the
    decimal value of [limit] exactly when [limit] is present and not zero. *)
Theorem default_query_with_nonzero_limit remote c project_id dataset_id table_id
    location limit :
  sent_queries (_read_table remote c project_id dataset_id table_id location
                  limit None).1 =
    [match limit with
     | Some n =>
         if decide (n = 0)
         then "SELECT * FROM `" +:+ (project_id +:+ "." +:+ dataset_id +:+ "." +:+ table_id) +:+ "`"
         else ("SELECT * FROM `" +:+ (project_id +:+ "." +:+ dataset_id +:+ "." +:+ table_id) +:+ "`")
                +:+ " LIMIT " +:+ pretty n
     | None => "SELECT * FROM `" +:+ (project_id +:+ "." +:+ dataset_id +:+ "." +:+ table_id) +:+ "`"
     end].
Proof. by rewrite read_table_sends_its_query, read_table_query_default. Qed.

(** C10: an empty [custom_query] is treated as an absent one: [_read_table]
    does what it does without [custom_query], and the one query it sends is
    not the empty string but the default query over the back-quoted
    [project_id.dataset_id.table_id], with the LIMIT clause that [limit]
    gives it. *)
Theorem empty_custom_query_is_absent remote c project_id dataset_id table_id
    location limit :
  _read_table remote c project_id dataset_id table_id location limit (Some "") =
    _read_table remote c project_id dataset_id table_id location limit None
  ∧ sent_queries (_read_table remote c project_id dataset_id table_id location
                    limit (Some "")).1 =
      [match limit with
       | Some n =>
           if decide (n = 0)
           then "SELECT * FROM `" +:+ (project_id +:+ "." +:+ dataset_id +:+ "." +:+ table_id) +:+ "`"
           else ("SELECT * FROM `" +:+ (project_id +:+ "." +:+ dataset_id +:+ "." +:+ table_id) +:+ "`")
                  +:+ " LIMIT " +:+ pretty n
       | None => "SELECT * FROM `" +:+ (project_id +:+ "." +:+ dataset_id +:+ "." +:+ table_id) +:+ "`"
       end].
Proof.
  split; [done |].
  by rewrite read_table_sends_its_query, <- read_table_query_default.
Qed.

(** ** Examples *)

(** The scenarios of the specification for the query of [read_table]. *)
Example read_table_limit_10 :
  sent_queries (_read_table sample_remote sample_credentials "p" "d" "t" "US"
                  (Some 10) None).1 = ["SELECT * FROM `p.d.t` LIMIT 10"].
Proof. reflexivity. Qed.

Example read_table_select_1 :
  sent_queries (_read_table sample_remote sample_credentials "p" "d" "t" "US"
                  (Some 10) (Some "SELECT 1")).1 = ["SELECT 1"].
Proof. reflexivity. Qed.

Lemma credentials_round_trip_witness :
  dom sample_record = record_fields
  ∧ ∃ c, _dict_to_credentials ∅ sample_record = Ok c
       ∧ _credentials_to_dict c = sample_record.
Proof.
  assert (Hdom : dom sample_record = record_fields) by (vm_compute; reflexivity).
  split; [exact Hdom |].
  exact (credentials_round_trip ∅ sample_record Hdom).
Defined.

(** [get_datasets] called with a record that has a refresh token and no
    token endpoint raises nothing: it calls the remote service and returns
    its datasets. *)
Lemma missing_token_uri_reaches_remote :
  record_without_token_uri !! "token_uri" = None
  ∧ record_without_token_uri !! "refresh_token" = Some (VStr "1//refresh")
  ∧ (handle ∅ call_as_key (mkEnv 0 sample_remote) (GetDatasets "p")
       (CredDict record_without_token_uri) empty_state).1 = Ok sample_rows
  ∧ remote_log (handle ∅ call_as_key (mkEnv 0 sample_remote) (GetDatasets "p")
       (CredDict record_without_token_uri) empty_state).2 =
      [DiscoveryBuild "bigquery" "v2"
         (mkCredentials (VStr "ya29.access") (VStr "1//refresh") VNone VNone VNone VNone ∅);
       Execute (DatasetsList 1%N "p")].
Proof.
  split; [by vm_compute |]. split; [by vm_compute |].
  rewrite (handle_miss_ok ∅ call_as_key _ _ _
             (mkCredentials (VStr "ya29.access") (VStr "1//refresh") VNone VNone VNone VNone ∅)
             _ sample_rows).
  - simpl. split; [reflexivity |]. vm_compute. reflexivity.
  - vm_compute. reflexivity.
  - apply cached_empty.
  - vm_compute. reflexivity.
Qed.

Lemma missing_token_uri_not_rejected_witness :
  ∃ c, _dict_to_credentials ∅ record_without_token_uri = Ok c
    ∧ token_uri c = VNone ∧ refresh_token c = VStr "1//refresh"
    ∧ (handle ∅ call_as_key (mkEnv 0 sample_remote) (GetDatasets "p")
         (CredDict record_without_token_uri) empty_state).1 =
        (producer sample_remote (GetDatasets "p") c).2
    ∧ (producer sample_remote (GetDatasets "p") c).1 ≠ [].
Proof.
  destruct (missing_token_uri_not_rejected ∅ call_as_key (mkEnv 0 sample_remote)
              (GetDatasets "p") record_without_token_uri
              (VStr "ya29.access") (VStr "1//refresh") empty_state)
    as (c & Hc & Huri & Hrt & _ & Hmiss).
  - apply (bool_decide_unpack _). vm_compute. exact I.
  - vm_compute. reflexivity.
  - vm_compute. reflexivity.
  - vm_compute. reflexivity.
  - vm_compute. reflexivity.
  - exists c. destruct (Hmiss (cached_empty _ _ _)) as (Hres & _ & Hcalls).
    repeat split; assumption.
Defined.

(** With an empty [custom_query] the query sent is not the supplied string. *)
Lemma empty_custom_query_not_sent :
  sent_queries (_read_table sample_remote sample_credentials "p" "d" "t" "US"
                  None (Some "")).1 = ["SELECT * FROM `p.d.t`"]
  ∧ sent_queries (_read_table sample_remote sample_credentials "p" "d" "t" "US"
                    None (Some "")).1 ≠ [""].
Proof. split; [reflexivity | discriminate]. Qed.

Lemma custom_query_sent_verbatim_witness :
  "SELECT 1" ≠ ""
  ∧ sent_queries (_read_table sample_remote sample_credentials "p" "d" "t" "US"
                    (Some 10) (Some "SELECT 1")).1 = ["SELECT 1"].
Proof.
  assert (Hne : "SELECT 1" ≠ "") by discriminate.
  split; [exact Hne |].
  exact (custom_query_sent_verbatim sample_remote sample_credentials
           "p" "d" "t" "US" (Some 10) "SELECT 1" Hne).
Defined.

(** A negative [limit] gets a LIMIT clause. *)
Lemma negative_limit_gets_limit_clause :
  sent_queries (_read_table sample_remote sample_credentials "p" "d" "t" "US"
                  (Some (-5)) None).1 = ["SELECT * FROM `p.d.t` LIMIT -5"]
  ∧ sent_queries (_read_table sample_remote sample_credentials "p" "d" "t" "US"
                    (Some (-5)) None).1 ≠ ["SELECT * FROM `p.d.t`"].
Proof. split; [reflexivity | discriminate]. Qed.

Lemma failures_not_memoised_witness :
  (handle ∅ call_as_key (mkEnv 0 failing_remote) (GetDatasets "p")
     (CredLive sample_credentials) empty_state).1 =
    Raise (ProviderError "HttpError" "503 unavailable")
  ∧ cache (handle ∅ call_as_key (mkEnv 0 failing_remote) (GetDatasets "p")
       (CredLive sample_credentials) empty_state).2 = ∅
  ∧ (handle ∅ call_as_key (mkEnv 1 sample_remote) (GetDatasets "p")
       (CredLive sample_credentials)
       (handle ∅ call_as_key (mkEnv 0 failing_remote) (GetDatasets "p")
          (CredLive sample_credentials) empty_state).2).1 =
      (producer sample_remote (GetDatasets "p") sample_credentials).2.
Proof.
  destruct (failures_not_memoised ∅ call_as_key (mkEnv 0 failing_remote)
              (GetDatasets "p") (CredLive sample_credentials) sample_credentials
              empty_state (ProviderError "HttpError" "503 unavailable"))
    as (Hres & Hcache & _ & Hnext).
  - reflexivity.
  - apply cached_empty.
  - vm_compute. reflexivity.
  - split; [exact Hres |]. split; [exact Hcache |].
    destruct (Hnext (mkEnv 1 sample_remote)) as (Hagain & _); [simpl; lia |].
    exact Hagain.
Defined.





(** A dictionary without a token, and one whose refresh handler is a string,
    are refused before anything else happens. *)
Example refused_without_token :
  ∃ msg, handle ∅ call_as_key (mkEnv 0 sample_remote) GetProjects
           (CredDict record_without_token) empty_state =
           (Raise (TypeError msg), empty_state).
Proof.
  assert (Hc : ∃ msg, as_credentials ∅ (CredDict record_without_token) =
                        Raise (TypeError msg))
    by (eexists; vm_compute; reflexivity).
  destruct Hc as [msg Hc]. exists msg. by rewrite handle_unfold, Hc.
Qed.

Example refused_with_bad_handler :
  handle {[ "refresh_handler" ]} call_as_key (mkEnv 0 sample_remote) GetProjects
    (CredDict record_with_bad_handler) empty_state =
    (Raise (TypeError "The provided refresh_handler is not a callable or None."),
     empty_state).
Proof.
  assert (Hc : as_credentials {[ "refresh_handler" ]} (CredDict record_with_bad_handler) =
                 Raise (TypeError "The provided refresh_handler is not a callable or None."))
    by (vm_compute; reflexivity).
  by rewrite handle_unfold, Hc.
Qed.

(** * Further properties of the code *)

(** ** The credential codec, in both directions *)

Section CodecRoundTrips.

Variable extra_params : gset string.

Lemma credentials_to_dict_dom (c : Credentials) :
  dom (_credentials_to_dict c) = record_fields.
Proof.
  apply set_eq. intros k. rewrite elem_of_dom, credentials_to_dict_lookup.
  unfold record_fields.
  repeat (case_decide; [subst; split; [set_solver | by eauto] |]).
  split; [by intros [? ?] | set_solver].
Qed.

(** What the dictionary of converted credentials holds: for each of the six
    fields the value of the record, or [None] when the record lacks it. *)
Lemma converted_lookup (r : CredentialRecord) (c : Credentials) (k : string) :
  _dict_to_credentials extra_params r = Ok c →
  _credentials_to_dict c !! k =
    if decide (k ∈ record_fields) then Some (kwarg r k) else None.
Proof.
  intros Hc. apply dict_to_credentials_inv in Hc as (_ & _ & tok & Htok & ->).
  rewrite credentials_to_dict_lookup. simpl.
  unfold record_fields.
  destruct (decide (k = "token")) as [-> | ?].
  { rewrite decide_True by set_solver. by rewrite (kwarg_lookup _ _ _ Htok). }
  repeat (destruct (decide (k = _)) as [-> | ?];
    [ by rewrite decide_True by set_solver |]).
  by rewrite decide_False by set_solver.
Qed.

(** X1: the dictionary made from live credentials always has exactly the six
    fields, and converting it back gives the same credentials, without the
    keyword arguments that are not among the six. *)
Theorem credentials_to_dict_then_back (c : Credentials) :
  dom (_credentials_to_dict c) = record_fields
  ∧ _dict_to_credentials extra_params (_credentials_to_dict c) =
      Ok (mkCredentials (token c) (refresh_token c) (token_uri c) (client_id c)
            (client_secret c) (scopes c) ∅).
Proof.
  split; [apply credentials_to_dict_dom |].
  rewrite (dict_to_credentials_ok _ _ (token c)).
  - reflexivity.
  - rewrite credentials_to_dict_dom. set_solver.
  - by rewrite credentials_to_dict_lookup.
  - apply no_handler_among_fields. by rewrite credentials_to_dict_dom.
Qed.

(** X2: for a record the constructor accepts, converting to live credentials
    and back gives the record again exactly when the record has the six
    fields and no other; a field the record lacks comes back as [None]. *)
Theorem round_trip_iff_six_fields (r : CredentialRecord) (c : Credentials) :
  _dict_to_credentials extra_params r = Ok c →
  (_credentials_to_dict c = r ↔ dom r = record_fields)
  ∧ (∀ k, k ∈ record_fields → r !! k = None → _credentials_to_dict c !! k = Some VNone).
Proof.
  intros Hc. split; [split |].
  - intros <-. apply credentials_to_dict_dom.
  - intros Hdom. apply map_eq. intros k. rewrite (converted_lookup r c k Hc).
    case_decide as Hk.
    + rewrite <- Hdom in Hk. apply elem_of_dom in Hk as [v Hv].
      by rewrite (kwarg_lookup _ _ _ Hv).
    + symmetry. apply not_elem_of_dom. by rewrite Hdom.
  - intros k Hk Hnone. rewrite (converted_lookup r c k Hc).
    rewrite decide_True by done. by rewrite (kwarg_absent _ _ Hnone).
Qed.

(** X3: a field given as [None] and a field left out are the same to the
    conversion: adding [None] for one of the five optional fields a record
    lacks does not change the live credentials, hence not the cache key. *)
Theorem explicit_none_is_absent (r : CredentialRecord) (k : string) :
  k ∈ record_fields → k ≠ "token" → r !! k = None →
  _dict_to_credentials extra_params (<[k := VNone]> r) =
    _dict_to_credentials extra_params r.
Proof.
  intros Hk Htok Hnone. unfold _dict_to_credentials, Credentials_init.
  assert (Hkw : ∀ f, kwarg (<[k := VNone]> r) f = kwarg r f).
  { intros f. unfold kwarg. destruct (decide (k = f)) as [<- | ?].
    - by rewrite lookup_insert_eq, Hnone.
    - by rewrite lookup_insert_ne. }
  assert (Hfilter : filter (fun kv : string * PyVal => kv.1 ∉ record_fields) (<[k := VNone]> r)
                    = filter (fun kv : string * PyVal => kv.1 ∉ record_fields) r).
  { rewrite map_filter_insert_False by (simpl; tauto).
    by rewrite delete_id. }
  assert (Hunknown : dom (<[k := VNone]> r) ∖ (record_fields ∪ extra_params)
                     = dom r ∖ (record_fields ∪ extra_params)).
  { rewrite dom_insert_L. set_solver. }
  rewrite lookup_insert_ne by done. rewrite !Hkw, Hfilter, Hunknown.
  destruct (decide (dom r ⊆ record_fields ∪ extra_params)) as [Hsub | Hsub].
  - rewrite decide_True; [done |]. rewrite dom_insert_L. set_solver.
  - rewrite decide_False; [done |]. rewrite dom_insert_L. set_solver.
Qed.

End CodecRoundTrips.

(** ** The memoised functions *)

(** Takes the oracle's answers apart in a goal about a memoised function. *)
Ltac run_calls :=
  unfold _get_projects, _get_datasets, _get_tables, _read_table,
    _read_table_try, _get_table_schema, _get_table_schema_try, send,
    try_except, raise, mbind, Call_bind, mret, Call_ret, remote_call in *;
  simpl in *;
  repeat (match goal with
          | H : context [match ?r with Ok _ => _ | Raise _ => _ end] |- _ =>
              destruct r eqn:?; simpl in H
          | H : context [match ?r with
                         | Refused _ => _ | Raised _ => _ | Returned _ => _
                         end] |- _ =>
              destruct r eqn:?; simpl in H
          | |- context [match ?r with Ok _ => _ | Raise _ => _ end] =>
              destruct r eqn:?; simpl
          | |- context [match ?r with
                        | Refused _ => _ | Raised _ => _ | Returned _ => _
                        end] =>
              destruct r eqn:?; simpl
          end).


(** X5: a response without the list of resources gives the empty list: when
    the response to the request of a listing function has no "projects",
    "datasets" or "tables" entry, the function returns [[]], after exactly
    one build and one request. *)
Theorem listing_without_entry_is_empty (remote : Remote) (c : Credentials)
    (service : Service) (response : gmap string Payload) :
  (discovery_build remote "cloudresourcemanager" crm_version c = Ok service →
   execute remote (ProjectsList service) = Returned response →
   response !! "projects" = None →
   _get_projects remote c =
     ([DiscoveryBuild "cloudresourcemanager" crm_version c;
       Execute (ProjectsList service)], Ok []))
  ∧ (∀ p, discovery_build remote "bigquery" bq_version c = Ok service →
     execute remote (DatasetsList service p) = Returned response →
     response !! "datasets" = None →
     _get_datasets remote c p =
       ([DiscoveryBuild "bigquery" bq_version c; Execute (DatasetsList service p)],
        Ok []))
  ∧ (∀ p d, discovery_build remote "bigquery" bq_version c = Ok service →
     execute remote (TablesList service p d) = Returned response →
     response !! "tables" = None →
     _get_tables remote c p d =
       ([DiscoveryBuild "bigquery" bq_version c; Execute (TablesList service p d)],
        Ok [])).
Proof.
  split; [| split]; intros; run_calls; simplify_eq; try congruence;
    match goal with
    | H : ?x = Returned ?r, H' : ?x = Returned ?a |- context [?a !! _] =>
        assert (a = r) as -> by congruence
    end;
    by match goal with H : _ !! _ = None |- _ => rewrite H end.
Qed.

(** X6: a schema comes back as one dictionary per field of the table, in the
    order of the fields, each with exactly the keys name, type, mode and
    description and the field's values under them. *)
Theorem schema_rows_follow_fields (remote : Remote) (c : Credentials)
    (project_id dataset_id table_id location : string) (rows : Payload) :
  (_get_table_schema remote c project_id dataset_id table_id location).2 = Ok rows →
  ∃ table,
    bq_get_table remote (mkBqClient c project_id location)
      (project_id +:+ "." +:+ dataset_id +:+ "." +:+ table_id) = Ok table
    ∧ length rows = length (schema table)
    ∧ ∀ i field, schema table !! i = Some field →
        ∃ row, rows !! i = Some row
          ∧ dom row = ({[ "name"; "type"; "mode"; "description" ]} : gset string)
          ∧ row !! "name" = Some (VStr (name field))
          ∧ row !! "type" = Some (VStr (field_type field))
          ∧ row !! "mode" = Some (VStr (mode field))
          ∧ row !! "description" = Some (description field).
Proof.
  intros Hrows.
  unfold _get_table_schema, _get_table_schema_try, try_except, mbind, Call_bind,
    remote_call in Hrows. simpl in Hrows.
  destruct (bq_get_table remote _ _) as [table | e] eqn:Htable; simpl in Hrows;
    [| done].
  injection Hrows as <-. exists table. split; [done |]. split; [by rewrite length_fmap |].
  intros i field Hfield. exists (field_dict field).
  split; [by rewrite list_lookup_fmap, Hfield |].
  unfold field_dict. split; [| by simplify_map_eq].
  rewrite !dom_insert_L, dom_singleton_L. set_solver.
Qed.

(** X7: [_read_table] and [_get_table_schema] raise nothing but their own
    wrapped exception: whatever they raise is an [Exception] whose message is
    the fixed prefix, the table reference and the text of the exception that
    a remote call of the [try] block raised. The class of that exception is
    not kept. *)
Theorem only_wrapped_exceptions_escape (remote : Remote) (c : Credentials)
    (project_id dataset_id table_id location : string) (e : PyExn) :
  (∀ limit custom_query,
     (_read_table remote c project_id dataset_id table_id location
        limit custom_query).2 = Raise e →
     ∃ cause,
       (_read_table_try remote (mkBqClient c project_id location)
          (project_id +:+ "." +:+ dataset_id +:+ "." +:+ table_id)
          limit custom_query).2 = Raise cause
       ∧ e = Exception ("Error reading table " +:+
               (project_id +:+ "." +:+ dataset_id +:+ "." +:+ table_id) +:+
               ": " +:+ py_str cause))
  ∧ ((_get_table_schema remote c project_id dataset_id table_id location).2 = Raise e →
     ∃ cause,
       bq_get_table remote (mkBqClient c project_id location)
         (project_id +:+ "." +:+ dataset_id +:+ "." +:+ table_id) = Raise cause
       ∧ e = Exception ("Error getting table schema for " +:+
               (project_id +:+ "." +:+ dataset_id +:+ "." +:+ table_id) +:+
               ": " +:+ py_str cause)).
Proof.
  split.
  - intros limit custom_query He. unfold _read_table, try_except in He.
    destruct (_read_table_try _ _ _ _ _).2 as [v | cause] eqn:Htry; [| simpl in He].
    + by rewrite Htry in He.
    + exists cause. split; [done |]. by injection He as <-.
  - intros He.
    unfold _get_table_schema, _get_table_schema_try, try_except, mbind, Call_bind,
      remote_call in He. simpl in He.
    destruct (bq_get_table remote _ _) as [table | cause] eqn:Htable; simpl in He;
      [done |].
    exists cause. split; [done |]. by injection He as <-.
Qed.

(** X8: every remote call that carries credentials carries the credentials
    the memoised function was called with, and every BigQuery client is the
    one built for the project and the location of the call. *)
Theorem remote_calls_use_the_callers_credentials (remote : Remote) (op : Operation)
    (c : Credentials) (call : RemoteCall) :
  call ∈ (producer remote op c).1 →
  match call with
  | DiscoveryBuild _ _ c' => c' = c
  | Query client _ | GetTable client _ =>
      bq_credentials client = c
      ∧ match op with
        | ReadTable p _ _ location _ _ | GetTableSchema p _ _ location =>
            bq_project client = p ∧ bq_location client = location
        | _ => False
        end
  | Execute _ | JobResult _ | ToDataframe _ => True
  end.
Proof.
  intros Hin. destruct op; simpl in Hin; run_calls;
    repeat (apply elem_of_cons in Hin as [-> | Hin]; [done |]);
    by apply elem_of_nil in Hin.
Qed.

Lemma read_table_try_custom (remote : Remote) (client : BqClient)
    (table_ref table_ref' : string) (limit limit' : option Z) (q : string) :
  q ≠ "" →
  _read_table_try remote client table_ref limit (Some q) =
    _read_table_try remote client table_ref' limit' (Some q).
Proof.
  intros Hq. unfold _read_table_try, read_table_query. simpl.
  by rewrite bool_decide_eq_true_2.
Qed.

(** X9: with a custom query that is not empty, [dataset_id], [table_id] and
    [limit] do not reach the remote service: two executions that differ only
    in them make the same remote calls and succeed with the same value. They
    only change the text of a raised exception and the memoised call, so such
    calls are cached apart. *)
Theorem custom_query_ignores_table_and_limit (remote : Remote) (c : Credentials)
    (p d t d' t' location : string) (limit limit' : option Z) (q : string) :
  q ≠ "" →
  (_read_table remote c p d t location limit (Some q)).1 =
    (_read_table remote c p d' t' location limit' (Some q)).1
  ∧ (∀ v, (_read_table remote c p d t location limit (Some q)).2 = Ok v ↔
          (_read_table remote c p d' t' location limit' (Some q)).2 = Ok v)
  ∧ ((d, t, limit) ≠ (d', t', limit') →
     memo_call (ReadTable p d t location limit (Some q)) c ≠
       memo_call (ReadTable p d' t' location limit' (Some q)) c).
Proof.
  intros Hq.
  assert (Hcalls : (d, t, limit) ≠ (d', t', limit') →
            memo_call (ReadTable p d t location limit (Some q)) c ≠
              memo_call (ReadTable p d' t' location limit' (Some q)) c).
  { intros Hne Heq. apply memo_call_inj in Heq as [Heq _]. by simplify_eq. }
  unfold _read_table, try_except.
  rewrite (read_table_try_custom remote _ (p +:+ "." +:+ d +:+ "." +:+ t)
             (p +:+ "." +:+ d' +:+ "." +:+ t') limit limit' q Hq).
  destruct (_read_table_try _ _ _ _ _).2 as [v | e] eqn:Htry.
  - by rewrite Htry.
  - done.
Qed.

(** X10: a [limit] of zero does what an absent [limit] does, and an empty
    [custom_query] what an absent one does, but the memoised calls differ:
    the same remote work is cached under different keys. *)
Theorem zero_and_empty_are_cached_apart (remote : Remote) (c : Credentials)
    (p d t location : string) (limit : option Z) (custom_query : option string) :
  _read_table remote c p d t location (Some 0) custom_query =
    _read_table remote c p d t location None custom_query
  ∧ _read_table remote c p d t location limit (Some "") =
      _read_table remote c p d t location limit None
  ∧ memo_call (ReadTable p d t location (Some 0) custom_query) c ≠
      memo_call (ReadTable p d t location None custom_query) c
  ∧ memo_call (ReadTable p d t location limit (Some "")) c ≠
      memo_call (ReadTable p d t location limit None) c.
Proof.
  split; [| split; [done |]].
  - unfold _read_table, _read_table_try, read_table_query.
    by destruct (truthy_str custom_query).
  - split; intros Heq; apply memo_call_inj in Heq as [Heq _]; discriminate.
Qed.

(** ** The methods and the cache *)

Section MethodFacts.

Variable extra_params : gset string.
Context {K : Type} `{Countable K}.
Variable make_cache_key : MemoCall → K.

Local Abbreviation handle := (handle extra_params make_cache_key).
Local Abbreviation as_credentials := (as_credentials extra_params).

Implicit Types (st : @State K _ _) (env : Env) (op : Operation).
Implicit Types (c : Credentials) (k : K).

(** A method changes no entry of the cache but the one of its own key. *)
Lemma handle_other_keys env op creds st k' :
  (∀ c, as_credentials creds = Ok c → k' ≠ make_cache_key (memo_call op c)) →
  cache (handle env op creds st).2 !! k' = cache st !! k'.
Proof.
  intros Hk. rewrite handle_unfold.
  destruct (as_credentials creds) as [c | e]; [| done].
  specialize (Hk c eq_refl). unfold invoke.
  destruct (cache st !! make_cache_key (memo_call op c)) as [entry |];
    [case_bool_decide; [done |] |];
    destruct ((producer (remote env) op c).2); simpl;
    by rewrite ?lookup_insert_ne.
Qed.

Lemma cached_other_keys env op creds st k' now' :
  (∀ c, as_credentials creds = Ok c → k' ≠ make_cache_key (memo_call op c)) →
  cached (handle env op creds st).2 k' now' = cached st k' now'.
Proof. intros Hk. unfold cached. by rewrite handle_other_keys. Qed.

(** X11: credentials the handler cannot use stop a call before the cache and
    the remote service are touched: the state is left as it was, and the
    exception is not wrapped. A dictionary is refused, with a [TypeError],
    exactly when it has no token, has a key the constructor does not know, or
    gives a refresh handler that is neither callable nor [None]; anything
    that is neither a dictionary nor live credentials fails the assertion;
    live credentials are never refused. *)
Theorem rejected_credentials_stop_the_call env op creds st :
  match as_credentials creds with
  | Ok c =>
      match creds with
      | CredDict d =>
          "token" ∈ dom d
          ∧ dom d ⊆ record_fields ∪ extra_params
          ∧ callable_or_none (kwarg d "refresh_handler") = true
      | CredLive c' => c' = c
      | CredOther _ => False
      end
  | Raise e =>
      handle env op creds st = (Raise e, st)
      ∧ match creds with
        | CredDict d =>
            (∃ msg, e = TypeError msg)
            ∧ ("token" ∉ dom d
               ∨ ¬ dom d ⊆ record_fields ∪ extra_params
               ∨ callable_or_none (kwarg d "refresh_handler") = false)
        | CredLive _ => False
        | CredOther _ => e = AssertionError
        end
  end.
Proof.
  destruct (as_credentials creds) as [c | e] eqn:Hc.
  - destruct creds as [d | c' | v]; simpl in Hc; [| by injection Hc | done].
    apply dict_to_credentials_inv in Hc as (Hdom & Hhandler & tok & Htok & _).
    split; [| done]. apply elem_of_dom. by eauto.
  - split; [by rewrite handle_unfold, Hc |].
    destruct creds as [d | c | v]; simpl in Hc; [| done | by injection Hc as <-].
    unfold _dict_to_credentials, Credentials_init in Hc. case_decide.
    + destruct (d !! "token") eqn:Htok.
      * destruct (callable_or_none _) eqn:Hhandler; [done |]. injection Hc as <-.
        split; [by eexists |]. by right; right.
      * injection Hc as <-. split; [by eexists |]. left. by apply not_elem_of_dom.
    + injection Hc as <-. split; [by eexists |]. by right; left.
Qed.

(** X12: results are not shared across credentials. When the key derivation
    does not collide, a call made with other credentials never serves a
    caller: whatever an earlier call with credentials [c] cached, a call with
    credentials [c'] that had no unexpired entry of its own runs its remote
    function, with [c']. *)
Theorem results_not_shared_across_credentials env env' op creds creds' c c' st :
  Inj (=) (=) make_cache_key →
  as_credentials creds = Ok c →
  as_credentials creds' = Ok c' →
  c ≠ c' →
  cached st (make_cache_key (memo_call op c')) (now env') = None →
  (handle env' op creds' (handle env op creds st).2).1 =
    (producer (remote env') op c').2
  ∧ remote_log (handle env' op creds' (handle env op creds st).2).2 =
      remote_log (handle env op creds st).2 ++ (producer (remote env') op c').1.
Proof.
  intros Hinj Hc Hc' Hne Hmiss.
  assert (Hmiss' : cached (handle env op creds st).2
                     (make_cache_key (memo_call op c')) (now env') = None).
  { rewrite cached_other_keys; [done |]. intros c0 Hc0 Heq.
    apply Hinj, memo_call_inj in Heq as [_ ->]. congruence. }
  rewrite (handle_unfold _ _ env' op creds'), Hc', invoke_miss by done.
  by destruct (producer (remote env') op c').2.
Qed.

(** X13: after [clear_cache] nothing is served from the cache: the cache is
    empty, the log of remote calls is as before, and the next call of any
    operation runs its remote function. *)
Theorem clear_cache_forces_remote_call env op creds c st :
  as_credentials creds = Ok c →
  cache (clear_cache st).2 = ∅
  ∧ remote_log (clear_cache st).2 = remote_log st
  ∧ (handle env op creds (clear_cache st).2).1 = (producer (remote env) op c).2
  ∧ remote_log (handle env op creds (clear_cache st).2).2 =
      remote_log st ++ (producer (remote env) op c).1.
Proof.
  intros Hc. split; [done |]. split; [done |].
  rewrite handle_unfold, Hc, invoke_miss by apply cached_empty.
  by destruct (producer (remote env) op c).2.
Qed.

(** X14: an entry is served for 300 seconds and no longer. When a first call
    missed the cache and its remote call returned, a call with the same key
    made more than 300 seconds later runs the remote function again and
    returns what that run returns. *)
Theorem call_after_ttl_runs_again env env' op creds creds' c st v :
  as_credentials creds = Ok c →
  as_credentials creds' = Ok c →
  cached st (make_cache_key (memo_call op c)) (now env) = None →
  (producer (remote env) op c).2 = Ok v →
  now env + 300 < now env' →
  (handle env' op creds' (handle env op creds st).2).1 =
    (producer (remote env') op c).2
  ∧ remote_log (handle env' op creds' (handle env op creds st).2).2 =
      remote_log st ++ (producer (remote env) op c).1
        ++ (producer (remote env') op c).1.
Proof.
  intros Hc Hc' Hmiss Hv Hlate.
  rewrite (handle_miss_ok _ _ env op creds c st v) by done. simpl.
  rewrite handle_unfold, Hc', invoke_miss.
  - destruct (producer (remote env') op c).2; simpl; by rewrite <- app_assoc.
  - unfold cached. simpl. rewrite lookup_insert_eq. simpl.
    rewrite bool_decide_eq_false_2; [done |]. unfold cache_timeout. lia.
Qed.

End MethodFacts.

(** ** Examples for the further properties *)

Lemma round_trip_iff_six_fields_witness :
  (_credentials_to_dict
     (mkCredentials (VStr "ya29.access") (VStr "1//refresh") VNone VNone VNone VNone ∅)
   = record_without_token_uri ↔ dom record_without_token_uri = record_fields)
  ∧ _credentials_to_dict
      (mkCredentials (VStr "ya29.access") (VStr "1//refresh") VNone VNone VNone VNone ∅)
      !! "token_uri" = Some VNone.
Proof.
  destruct (round_trip_iff_six_fields ∅ record_without_token_uri
              (mkCredentials (VStr "ya29.access") (VStr "1//refresh")
                 VNone VNone VNone VNone ∅)) as [Hiff Hnone].
  - vm_compute. reflexivity.
  - split; [exact Hiff |]. apply Hnone.
    + apply (bool_decide_unpack _). vm_compute. exact I.
    + vm_compute. reflexivity.
Defined.

Lemma explicit_none_is_absent_witness :
  _dict_to_credentials ∅ (<["token_uri" := VNone]> record_without_token_uri) =
    _dict_to_credentials ∅ record_without_token_uri.
Proof.
  apply (explicit_none_is_absent ∅ record_without_token_uri "token_uri").
  - apply (bool_decide_unpack _). vm_compute. exact I.
  - discriminate.
  - vm_compute. reflexivity.
Defined.


Lemma listing_without_entry_is_empty_witness :
  _get_projects bare_remote sample_credentials =
    ([DiscoveryBuild "cloudresourcemanager" crm_version sample_credentials;
      Execute (ProjectsList 1%N)], Ok [])
  ∧ _get_tables bare_remote sample_credentials "p" "d" =
      ([DiscoveryBuild "bigquery" bq_version sample_credentials;
        Execute (TablesList 1%N "p" "d")], Ok []).
Proof.
  destruct (listing_without_entry_is_empty bare_remote sample_credentials 1%N ∅)
    as (Hprojects & _ & Htables).
  split.
  - apply Hprojects; reflexivity.
  - apply Htables; reflexivity.
Defined.

Lemma schema_rows_follow_fields_witness :
  ∃ table,
    bq_get_table sample_remote (mkBqClient sample_credentials "p" "US") "p.d.t" = Ok table
    ∧ length [field_dict (mkSchemaField "id" "STRING" "NULLABLE" VNone)] =
        length (schema table).
Proof.
  destruct (schema_rows_follow_fields sample_remote sample_credentials
              "p" "d" "t" "US" [field_dict (mkSchemaField "id" "STRING" "NULLABLE" VNone)])
    as (table & Htable & Hlen & _).
  - reflexivity.
  - exists table. split; [exact Htable | exact Hlen].
Defined.

Lemma only_wrapped_exceptions_escape_witness :
  ∃ cause,
    (_read_table_try failing_remote (mkBqClient sample_credentials "p" "US")
       "p.d.t" (Some 10) None).2 = Raise cause
    ∧ Exception "Error reading table p.d.t: 404 table not found" =
        Exception ("Error reading table " +:+ "p.d.t" +:+ ": " +:+ py_str cause).
Proof.
  apply (proj1 (only_wrapped_exceptions_escape failing_remote sample_credentials
                  "p" "d" "t" "US"
                  (Exception "Error reading table p.d.t: 404 table not found"))
           (Some 10) None).
  vm_compute. reflexivity.
Defined.

Lemma remote_calls_use_the_callers_credentials_witness :
  bq_credentials (mkBqClient sample_credentials "p" "US") = sample_credentials
  ∧ bq_project (mkBqClient sample_credentials "p" "US") = "p"
  ∧ bq_location (mkBqClient sample_credentials "p" "US") = "US".
Proof.
  apply (remote_calls_use_the_callers_credentials sample_remote
           (ReadTable "p" "d" "t" "US" None (Some "SELECT 1")) sample_credentials
           (Query (mkBqClient sample_credentials "p" "US") "SELECT 1")).
  apply list_elem_of_In. left. reflexivity.
Defined.

Lemma custom_query_ignores_table_and_limit_witness :
  (_read_table sample_remote sample_credentials "p" "d" "t" "US"
     (Some 10) (Some "SELECT 1")).1 =
    (_read_table sample_remote sample_credentials "p" "other" "u" "US"
       None (Some "SELECT 1")).1
  ∧ memo_call (ReadTable "p" "d" "t" "US" (Some 10) (Some "SELECT 1")) sample_credentials ≠
      memo_call (ReadTable "p" "other" "u" "US" None (Some "SELECT 1")) sample_credentials.
Proof.
  destruct (custom_query_ignores_table_and_limit sample_remote sample_credentials
              "p" "d" "t" "other" "u" "US" (Some 10) None "SELECT 1")
    as (Hcalls & _ & Hkeys).
  - discriminate.
  - split; [exact Hcalls |]. apply Hkeys. discriminate.
Defined.

Lemma results_not_shared_across_credentials_witness :
  (handle ∅ call_as_key (mkEnv 1 failing_remote) (GetDatasets "p")
     (CredLive other_credentials)
     (handle ∅ call_as_key (mkEnv 0 sample_remote) (GetDatasets "p")
        (CredLive sample_credentials) empty_state).2).1 =
    (producer failing_remote (GetDatasets "p") other_credentials).2.
Proof.
  apply (results_not_shared_across_credentials ∅ call_as_key
           (mkEnv 0 sample_remote) (mkEnv 1 failing_remote) (GetDatasets "p")
           (CredLive sample_credentials) (CredLive other_credentials)
           sample_credentials other_credentials empty_state).
  - intros x y Hxy. exact Hxy.
  - reflexivity.
  - reflexivity.
  - discriminate.
  - apply cached_empty.
Defined.

Lemma clear_cache_forces_remote_call_witness :
  (handle ∅ call_as_key (mkEnv 0 sample_remote) (GetDatasets "p")
     (CredLive sample_credentials) (clear_cache empty_state).2).1 =
    (producer sample_remote (GetDatasets "p") sample_credentials).2.
Proof.
  destruct (clear_cache_forces_remote_call ∅ call_as_key (mkEnv 0 sample_remote)
              (GetDatasets "p") (CredLive sample_credentials) sample_credentials
              empty_state) as (_ & _ & Hrun & _).
  - reflexivity.
  - exact Hrun.
Defined.

Lemma call_after_ttl_runs_again_witness :
  (handle ∅ call_as_key (mkEnv 401 bare_remote) (GetDatasets "p")
     (CredLive sample_credentials)
     (handle ∅ call_as_key (mkEnv 100 sample_remote) (GetDatasets "p")
        (CredDict sample_record) empty_state).2).1 =
    (producer bare_remote (GetDatasets "p") sample_credentials).2.
Proof.
  apply (call_after_ttl_runs_again ∅ call_as_key (mkEnv 100 sample_remote)
           (mkEnv 401 bare_remote) (GetDatasets "p") (CredDict sample_record)
           (CredLive sample_credentials) sample_credentials empty_state sample_rows).
  - vm_compute. reflexivity.
  - reflexivity.
  - apply cached_empty.
  - vm_compute. reflexivity.
  - simpl. lia.
Defined.
